(** * Cross-page animated mesh (lib/animated-mesh): model and properties

    The component keeps one process-wide animation state on [window],
    samples the tracked DOM element once per display frame, moves the state
    towards the sample by linear interpolation and pushes the result to a
    persistent render proxy.  This file embeds that code and states its
    properties.

    Numbers.  A JavaScript number is an IEEE 754 binary64 value.  The code
    only adds, subtracts, multiplies, divides and negates numbers, so the
    embedding is written once over an interface [Number] and is read at two
    instances: [float] (binary64, what the program computes; Rocq's
    primitive floats round to nearest even like JavaScript) and [Q] (the
    same formulas without rounding). *)

From Stdlib Require Import String List Bool PArith NArith ZArith Lia.
From Stdlib Require Import QArith Qabs Qpower.
From Stdlib Require Import Floats.
Import ListNotations.

Set Warnings "-inexact-float".

(** ** Numbers *)

Class Number (num : Type) : Type := {
  nadd : num -> num -> num;
  nsub : num -> num -> num;
  nmul : num -> num -> num;
  ndiv : num -> num -> num;
  nopp : num -> num;
  n0 : num;
  n1 : num;
  n2 : num;
  (** the literal [0.1], default value of [lerpFactor] *)
  n0_1 : num
}.

Declare Scope num_scope.
Delimit Scope num_scope with num.
Infix "+" := nadd : num_scope.
Infix "-" := nsub : num_scope.
Infix "*" := nmul : num_scope.
Infix "/" := ndiv : num_scope.
Notation "- x" := (nopp x) : num_scope.

(** binary64, as the program runs *)
#[export] Instance float_Number : Number float := {
  nadd := PrimFloat.add;
  nsub := PrimFloat.sub;
  nmul := PrimFloat.mul;
  ndiv := PrimFloat.div;
  nopp := PrimFloat.opp;
  n0 := 0%float;
  n1 := 1%float;
  n2 := 2%float;
  n0_1 := 0.1%float
}.

(** exact rationals, the arithmetic without rounding *)
#[export] Instance Q_Number : Number Q := {
  nadd := Qplus;
  nsub := Qminus;
  nmul := Qmult;
  ndiv := Qdiv;
  nopp := Qopp;
  n0 := 0%Q;
  n1 := 1%Q;
  n2 := 2%Q;
  n0_1 := (1 # 10)%Q
}.

(** ** Data model *)

Section Model.

Context {num : Type} {NUM : Number num}.
Local Open Scope num_scope.

(** three's [Vector3] *)
Record Vector3 : Type := mkVector3 { x : num; y : num; z : num }.

(** Modelled from the spec: [Vector3.lerp] belongs to the three library and
    is not part of the sources.  Section 4.3 gives it per component as
    [new = old + (target - old) * alpha], which is the library's
    [this.x += (v.x - this.x) * alpha]. *)
Definition lerp (this v : Vector3) (alpha : num) : Vector3 :=
  {| x := x this + (x v - x this) * alpha;
     y := y this + (y v - y this) * alpha;
     z := z this + (z v - z this) * alpha |}.

(** [window.sharedMeshState]; [animationId] is [0] or a frame handle *)
Record SharedMeshState : Type := mkShared {
  position : Vector3;
  scale : Vector3;
  animationId : N
}.

(** The result of [element.getBoundingClientRect()] *)
Record DOMRect : Type := mkRect {
  left : num;
  top : num;
  width : num;
  height : num
}.

Record HTMLElement : Type := { getBoundingClientRect : DOMRect }.

Record DOMState : Type := { ds_position : Vector3; ds_scale : Vector3 }.

(** [getDOMState(element)]; [innerWidth] and [innerHeight] are read from
    [window] at the time of the call. *)
Definition getDOMState (element : HTMLElement) (innerWidth innerHeight : num)
  : DOMState :=
  let rect := getBoundingClientRect element in
  let position :=
    mkVector3 (left rect + width rect / n2 - innerWidth / n2)
              (- (top rect + height rect / n2 - innerHeight / n2))
              n0 in
  let scale := mkVector3 (width rect) (height rect) n1 in
  {| ds_position := position; ds_scale := scale |}.

(** ** The page: window, DOM refs, frame scheduler, render surface *)

(** The props object pushed to the render proxy:
    [{ position: [x, y, z], scale: [x, y, z], visible }] *)
Record Props : Type := mkProps {
  p_position : list num;
  p_scale : list num;
  p_visible : bool
}.

(** Calls made to the scroll-rig collaborator, which is outside the
    sources: the registration [useCanvas(mesh, props, {key, dispose})], the
    function [update(props)] it returns (bound to [key]) and
    [requestRender()].  They are recorded in call order. *)
Inductive Call : Type :=
| useCanvas_call (key : string) (props : Props) (dispose : bool)
| update_call (key : string) (props : Props)
| requestRender_call.

(** A [useRef] cell, identified by its index in [refs]. *)
Definition Ref : Type := nat.

(** The variables the closure [animate] captures (besides [sharedState],
    the singleton of [window], and [requestRender]). *)
Record Animate : Type := mkAnimate {
  a_track : Ref;
  a_lerpFactor : num;
  a_inViewport : bool;
  a_update : string
}.

Record World : Type := mkWorld {
  innerWidth : num;
  innerHeight : num;
  (** [window.sharedMeshState], [None] while undefined *)
  sharedMeshState : option SharedMeshState;
  (** [.current] of every ref cell, [None] for [null] *)
  refs : list (option HTMLElement);
  (** the browser's list of animation frame callbacks, oldest first *)
  frame_callbacks : list (N * Animate);
  (** the browser's animation frame callback identifier, initially [0] *)
  frame_id : N;
  calls : list Call
}.

Definition set_sharedMeshState (s : option SharedMeshState) (w : World) : World :=
  mkWorld (innerWidth w) (innerHeight w) s (refs w)
          (frame_callbacks w) (frame_id w) (calls w).

Definition set_frame_callbacks (l : list (N * Animate)) (w : World) : World :=
  mkWorld (innerWidth w) (innerHeight w) (sharedMeshState w) (refs w)
          l (frame_id w) (calls w).

Definition set_frame_id (n : N) (w : World) : World :=
  mkWorld (innerWidth w) (innerHeight w) (sharedMeshState w) (refs w)
          (frame_callbacks w) n (calls w).

Definition push_call (c : Call) (w : World) : World :=
  mkWorld (innerWidth w) (innerHeight w) (sharedMeshState w) (refs w)
          (frame_callbacks w) (frame_id w) (calls w ++ [c]).

Definition set_layout (r : list (option HTMLElement)) (vw vh : num) (w : World)
  : World :=
  mkWorld vw vh (sharedMeshState w) r (frame_callbacks w) (frame_id w) (calls w).

(** [ref.current] *)
Definition current (r : Ref) (w : World) : option HTMLElement :=
  nth r (refs w) None.

(** A page that has just been loaded: no shared state, nothing scheduled. *)
Definition fresh_page (r : list (option HTMLElement)) (vw vh : num) : World :=
  mkWorld vw vh None r [] 0%N [].

(** [requestAnimationFrame(callback)]: the identifier is incremented and
    returned as the handle; the callback is appended under that handle. *)
Definition requestAnimationFrame (callback : Animate) (w : World) : N * World :=
  let handle := N.succ (frame_id w) in
  (handle,
   set_frame_callbacks (frame_callbacks w ++ [(handle, callback)])
     (set_frame_id handle w)).

(** [cancelAnimationFrame(handle)]: the entry under [handle], if any, is
    removed. *)
Definition cancelAnimationFrame (handle : N) (w : World) : World :=
  set_frame_callbacks
    (filter (fun hc => negb (N.eqb (fst hc) handle)) (frame_callbacks w)) w.

(** ** The component *)

Definition initialSharedMeshState : SharedMeshState :=
  {| position := mkVector3 n0 n0 n0;
     scale := mkVector3 n1 n1 n1;
     animationId := 0%N |}.

(** [getSharedMeshState()] *)
Definition getSharedMeshState (w : World) : SharedMeshState * World :=
  match sharedMeshState w with
  | None =>
      (initialSharedMeshState,
       set_sharedMeshState (Some initialSharedMeshState) w)
  | Some s => (s, w)
  end.

Definition props_of (pos scl : Vector3) (visible : bool) : Props :=
  {| p_position := [x pos; y pos; z pos];
     p_scale := [x scl; y scl; z scl];
     p_visible := visible |}.

(** Step 5 of the tick, [sharedState.position.lerp(targetPosition, lerpFactor)]
    and [sharedState.scale.lerp(targetScale, lerpFactor)]: both vectors of
    the shared object are updated in place. *)
Definition interpolate (sharedState : SharedMeshState) (target : DOMState)
  (alpha : num) : SharedMeshState :=
  mkShared (lerp (position sharedState) (ds_position target) alpha)
           (lerp (scale sharedState) (ds_scale target) alpha)
           (animationId sharedState).

(** The closure [animate].  [sharedState] is the object that
    [getSharedMeshState] returned during render, that is, the one stored in
    [window.sharedMeshState]; the closure exists only after that call, so
    the branch for an undefined [window.sharedMeshState] is never taken. *)
Definition animate (a : Animate) (w : World) : World :=
  match current (a_track a) w with
  | None => w
  | Some element =>
      match sharedMeshState w with
      | None => w
      | Some sharedState =>
          let target := getDOMState element (innerWidth w) (innerHeight w) in
          let sharedState' := interpolate sharedState target (a_lerpFactor a) in
          let w1 :=
            push_call
              (update_call (a_update a)
                 (props_of (position sharedState') (scale sharedState')
                    (a_inViewport a))) w in
          let w2 := push_call requestRender_call w1 in
          let (handle, w3) := requestAnimationFrame a w2 in
          set_sharedMeshState
            (Some (mkShared (position sharedState') (scale sharedState') handle))
            w3
      end
  end.

(** The values of one render that the effect reads: its dependencies
    [tracker.inViewport], [update], [lerpFactor] and [track]. *)
Record Scope : Type := mkScope {
  track : Ref;
  lerpFactor : num;
  inViewport : bool;
  update : option string
}.

(** The body of the [useEffect] callback.  The boolean tells whether it
    returned the cleanup function. *)
Definition useEffect_body (sc : Scope) (w : World) : World * bool :=
  match update sc with
  | None => (w, false)
  | Some upd =>
      match sharedMeshState w with
      | None => (w, false)
      | Some sharedState =>
          let w1 :=
            if N.eqb (animationId sharedState) 0 then w
            else cancelAnimationFrame (animationId sharedState) w in
          (animate (mkAnimate (track sc) (lerpFactor sc) (inViewport sc) upd) w1,
           true)
      end
  end.

(** The cleanup function returned by the effect. *)
Definition cleanup (w : World) : World :=
  match sharedMeshState w with
  | None => w
  | Some sharedState =>
      if N.eqb (animationId sharedState) 0 then w
      else
        set_sharedMeshState
          (Some (mkShared (position sharedState) (scale sharedState) 0%N))
          (cancelAnimationFrame (animationId sharedState) w)
  end.

Record AnimatedMeshProps : Type := mkAnimatedMeshProps {
  id : string;
  am_track : Ref;
  (** [lerpFactor?: number], with default [0.1] *)
  am_lerpFactor : option num
}.

(** The render of [AnimatedMesh]: it reads the singleton and registers the
    proxy.  [tracker_inViewport] is what [useTracker] reports.  [useCanvas]
    belongs to the scroll-rig library; it returns the update function of
    the registration (section 4.4: [register(id, initialProps, {key,
    persistent}) -> updateFn]), here the key it is bound to. *)
Definition AnimatedMesh (p : AnimatedMeshProps) (tracker_inViewport : bool)
  (w : World) : Scope * World :=
  let (sharedState, w1) := getSharedMeshState w in
  let w2 :=
    push_call
      (useCanvas_call (id p)
         (props_of (position sharedState) (scale sharedState) tracker_inViewport)
         false) w1 in
  (mkScope (am_track p)
           (match am_lerpFactor p with Some a => a | None => n0_1 end)
           tracker_inViewport
           (Some (id p)),
   w2).

(** ** The browser's frame and the events of a page *)

(** Running the animation frame callbacks: the handles pending when the
    frame starts are visited oldest first; an entry still present is removed
    and its callback invoked. *)
Fixpoint run_callbacks (handles : list N) (w : World) : World :=
  match handles with
  | [] => w
  | h :: rest =>
      match find (fun hc => N.eqb (fst hc) h) (frame_callbacks w) with
      | None => run_callbacks rest w
      | Some (_, a) => run_callbacks rest (animate a (cancelAnimationFrame h w))
      end
  end.

Definition animationFrame (w : World) : World :=
  run_callbacks (map fst (frame_callbacks w)) w.

Inductive Event : Type :=
| ev_layout (r : list (option HTMLElement)) (vw vh : num)
| ev_render (p : AnimatedMeshProps) (tracker_inViewport : bool)
| ev_effect (sc : Scope)
| ev_cleanup
| ev_frame.

Definition step (w : World) (e : Event) : World :=
  match e with
  | ev_layout r vw vh => set_layout r vw vh w
  | ev_render p v => snd (AnimatedMesh p v w)
  | ev_effect sc => fst (useEffect_body sc w)
  | ev_cleanup => cleanup w
  | ev_frame => animationFrame w
  end.

Definition run (w : World) (evs : list Event) : World := fold_left step evs w.

(** A mount (or a re-run after a dependency change): the component renders
    and React then runs the effect of that render. *)
Definition mount (p : AnimatedMeshProps) (tracker_inViewport : bool)
  (w : World) : World :=
  let (sc, w1) := AnimatedMesh p tracker_inViewport w in
  fst (useEffect_body sc w1).

(** The handle stored in the shared state, [0] when there is none. *)
Definition activeLoopHandle (w : World) : N :=
  match sharedMeshState w with
  | Some s => animationId s
  | None => 0%N
  end.

(** ** Vocabulary of the properties *)

(** Events that run no component code: layout changes and display frames. *)
Inductive Passive : Type :=
| pv_layout (r : list (option HTMLElement)) (vw vh : num)
| pv_frame.

Definition event_of (p : Passive) : Event :=
  match p with
  | pv_layout r vw vh => ev_layout r vw vh
  | pv_frame => ev_frame
  end.

(** The single-loop invariant: at most one callback is pending, and its
    handle is the one stored in the shared state. *)
Definition single_loop (w : World) : Prop :=
  (length (frame_callbacks w) <= 1)%nat /\
  forall h a, In (h, a) (frame_callbacks w) ->
    h <> 0%N /\ (h <= frame_id w)%N /\ activeLoopHandle w = h.

(** A call with its [visible] field erased. *)
Definition geometry_of_call (c : Call) : Call :=
  match c with
  | useCanvas_call k p d => useCanvas_call k (mkProps (p_position p) (p_scale p) false) d
  | update_call k p => update_call k (mkProps (p_position p) (p_scale p) false)
  | requestRender_call => requestRender_call
  end.

(** [n] ticks of the interpolation towards a fixed target. *)
Definition ticks (n : nat) (alpha : num) (target : DOMState)
  (s : SharedMeshState) : SharedMeshState :=
  Nat.iter n (fun s' => interpolate s' target alpha) s.

(** The six interpolated components of a state, and of a sample. *)
Definition components (s : SharedMeshState) : list num :=
  [x (position s); y (position s); z (position s);
   x (scale s); y (scale s); z (scale s)].

Definition target_components (t : DOMState) : list num :=
  [x (ds_position t); y (ds_position t); z (ds_position t);
   x (ds_scale t); y (ds_scale t); z (ds_scale t)].

(** The closure that a mount of [p] schedules. *)
Definition closure_of (p : AnimatedMeshProps) (v : bool) : Animate :=
  mkAnimate (am_track p)
            (match am_lerpFactor p with Some a => a | None => n0_1 end)
            v (id p).

(** Pages on which every pending callback is the closure [a], under a
    handle issued after [f0]. *)
Definition owned_by (a : Animate) (f0 : N) (w : World) : Prop :=
  single_loop w /\ (f0 <= frame_id w)%N /\
  forall h a', In (h, a') (frame_callbacks w) -> a' = a /\ (f0 < h)%N.

(** One component under [n] ticks. *)
Definition tick_component (alpha target : num) (n : nat) (c : num) : num :=
  Nat.iter n (fun c' => c' + (target - c') * alpha) c.

(** A running loop: one pending callback [a], its element attached, a
    viewport of [vw] x [vh], and position and scale those of [st]. *)
Definition running (a : Animate) (element : HTMLElement) (vw vh : num)
  (st : SharedMeshState) (w : World) : Prop :=
  (exists h, frame_callbacks w = [(h, a)]) /\
  current (a_track a) w = Some element /\
  innerWidth w = vw /\ innerHeight w = vh /\
  exists s, sharedMeshState w = Some s /\
            position s = position st /\ scale s = scale st.

(** [AnimatedElement]: the wrapper creates its ref cell with [useRef(null!)]
    and renders the tracked component and an [AnimatedMesh] with [id], that
    ref and [lerpFactor] (default [0.1]).  The cell holds [null] until the
    rendered component puts its element there; the props that only style
    the DOM element or replace the mesh ([as], [className], [style],
    [children], [meshChildren]) have no part in the loop and are left out. *)
Record AnimatedElementProps : Type := mkAnimatedElementProps {
  ae_id : string;
  ae_lerpFactor : option num
}.

Definition AnimatedElement (p : AnimatedElementProps) (w : World)
  : AnimatedMeshProps * World :=
  let trackRef := List.length (refs w) in
  (mkAnimatedMeshProps (ae_id p) trackRef
     (Some (match ae_lerpFactor p with Some a => a | None => n0_1 end)),
   set_layout (refs w ++ [None]) (innerWidth w) (innerHeight w) w).

(** ** Vocabulary of the further properties *)




(** Events in which no tick can run: layout changes, renders, cleanups and
    effects whose [update] is undefined. *)
Definition quiet (e : Event) : bool :=
  match e with
  | ev_layout _ _ _ => true
  | ev_render _ _ => true
  | ev_effect sc => match update sc with None => true | Some _ => false end
  | ev_cleanup => true
  | ev_frame => false
  end.


End Model.

Arguments Vector3 num : clear implicits.
Arguments SharedMeshState num : clear implicits.
Arguments DOMRect num : clear implicits.
Arguments HTMLElement num : clear implicits.
Arguments DOMState num : clear implicits.
Arguments Props num : clear implicits.
Arguments Call num : clear implicits.
Arguments Animate num : clear implicits.
Arguments World num : clear implicits.
Arguments Scope num : clear implicits.
Arguments AnimatedMeshProps num : clear implicits.
Arguments Event num : clear implicits.
Arguments Passive num : clear implicits.
Arguments AnimatedElementProps num : clear implicits.


(** ** Scenarios at binary64 *)

Section Scenarios.

Local Open Scope float_scope.

(** An anchor with rect [{left:100, top:200, width:80, height:80}]. *)
Definition anchor : HTMLElement float :=
  {| getBoundingClientRect := mkRect 100 200 80 80 |}.

(** An anchor whose centre is 100 pixels right of the centre of a 1000x800
    viewport: its sample has position [(100, -0, 0)] and scale [(80, 80, 1)]. *)
Definition anchor_right : HTMLElement float :=
  {| getBoundingClientRect := mkRect 560 360 80 80 |}.

(** A freshly loaded 1000x800 page whose ref cell 0 holds [anchor_right]. *)
Definition page : World float := fresh_page [Some anchor_right] 1000 800.

(** [<AnimatedElement id="shared-element" />], default [lerpFactor] *)
Definition shared_element : AnimatedMeshProps float :=
  mkAnimatedMeshProps "shared-element" 0%nat None.

(** The same component on a page whose element never attaches (ref cell 1
    stays [null]). *)
Definition detached_element : AnimatedMeshProps float :=
  mkAnimatedMeshProps "shared-element" 1%nat None.

(** [b ^ n] by repeated multiplication. *)
Definition float_pow (b : float) (n : nat) : float :=
  Nat.iter n (fun p => PrimFloat.mul p b) 1.

(** The decay bound [|state - target| <= |initial - target| * 0.9^n],
    evaluated at binary64. *)
Definition decay_bound_binary64 (n : nat) (initial target state : float) : bool :=
  PrimFloat.leb (PrimFloat.abs (state - target))
                (PrimFloat.abs (initial - target) * float_pow 0.9 n).

(** Events whose effect, if any, carries a finite [lerpFactor] (neither
    infinite nor NaN). *)
Definition finite_factor (e : Event float) : bool :=
  match e with
  | ev_effect sc => is_finite (lerpFactor sc)
  | _ => true
  end.

(** Pages whose state, if any, has position z = 0 and scale z = 1, and
    whose pending callbacks carry finite factors. *)
Definition flat (w : World float) : Prop :=
  (forall s, sharedMeshState w = Some s ->
     z (position s) = 0 /\ z (scale s) = 1) /\
  (forall h a, In (h, a) (frame_callbacks w) ->
     is_finite (a_lerpFactor a) = true).

End Scenarios.

(** The decay bound over exact rationals. *)
Definition decay_bound (n : nat) (initial target state : Q) : Prop :=
  (Qabs (state - target) <= Qabs (initial - target) * (9 # 10) ^ Z.of_nat n)%Q.


(** * Properties *)

(** ** Geometry sampler *)

(** C1: for every bounding rect [{left, top, width, height}] and viewport
    [vw] x [vh] the sampler [getDOMState] returns position
    [(left + width/2 - vw/2, -(top + height/2 - vh/2), 0)] and scale
    [(width, height, 1)]; for the rect [{left:100, top:200, width:80,
    height:80}] in a 1000x800 viewport it returns position [(-360, 160, 0)]
    and scale [(80, 80, 1)]. *)
Theorem getDOMState_samples :
  (forall (num : Type) (NUM : Number num) (l t w h vw vh : num),
     let sample :=
       getDOMState {| getBoundingClientRect := mkRect l t w h |} vw vh in
     ds_position sample
       = mkVector3 (l + w / n2 - vw / n2) (- (t + h / n2 - vh / n2)) n0
     /\ ds_scale sample = mkVector3 w h n1)%num
  /\ (ds_position (getDOMState anchor 1000 800) = mkVector3 (-360) 160 0
      /\ ds_scale (getDOMState anchor 1000 800) = mkVector3 80 80 1)%float.
Proof.
  split.
  - intros num NUM l t w h vw vh sample. subst sample.
    unfold getDOMState. simpl. split; reflexivity.
  - unfold anchor, getDOMState. simpl. split; vm_compute; reflexivity.
Qed.


(** ** The loop: shape of a tick and the single-loop invariant *)

Section Loop.

Context {num : Type} {NUM : Number num}.
Local Open Scope num_scope.

Implicit Types (w : World num) (a : Animate num) (s : SharedMeshState num).

Lemma animate_detached a w :
  current (a_track a) w = None -> animate a w = w.
Proof. intros H. unfold animate. rewrite H. reflexivity. Qed.

Lemma animate_attached a w element s :
  current (a_track a) w = Some element ->
  sharedMeshState w = Some s ->
  let s' :=
    interpolate s (getDOMState element (innerWidth w) (innerHeight w))
      (a_lerpFactor a) in
  animate a w =
  mkWorld (innerWidth w) (innerHeight w)
    (Some (mkShared (position s') (scale s') (N.succ (frame_id w))))
    (refs w)
    (frame_callbacks w ++ [(N.succ (frame_id w), a)])
    (N.succ (frame_id w))
    ((calls w
        ++ [update_call (a_update a)
              (props_of (position s') (scale s') (a_inViewport a))])
       ++ [requestRender_call]).
Proof.
  intros Hel Hs. unfold animate. rewrite Hel, Hs. reflexivity.
Qed.

Lemma animate_no_state a w :
  sharedMeshState w = None -> animate a w = w.
Proof.
  intros Hs. unfold animate. rewrite Hs.
  destruct (current (a_track a) w); reflexivity.
Qed.

(** A tick either returns at its guard or interpolates and schedules. *)
Lemma animate_cases a w :
  animate a w = w \/
  exists element s,
    current (a_track a) w = Some element /\ sharedMeshState w = Some s.
Proof.
  destruct (current (a_track a) w) as [el|] eqn:Hel.
  - destruct (sharedMeshState w) as [s|] eqn:Hs.
    + right. exists el, s. split; reflexivity.
    + left. apply animate_no_state. assumption.
  - left. apply animate_detached. assumption.
Qed.

Lemma single_loop_idle w : frame_callbacks w = [] -> single_loop w.
Proof.
  intros H. unfold single_loop. rewrite H. simpl. split; [lia | tauto].
Qed.

Lemma single_loop_shape w :
  single_loop w ->
  frame_callbacks w = [] \/
  exists h a,
    frame_callbacks w = [(h, a)] /\ h <> 0%N /\ (h <= frame_id w)%N /\
    activeLoopHandle w = h.
Proof.
  intros [Hlen Hin].
  destruct (frame_callbacks w) as [|[h a] [|hc rest]] eqn:Hcb.
  - left. reflexivity.
  - right. exists h, a. split; [reflexivity|]. apply (Hin h a). left. reflexivity.
  - simpl in Hlen. lia.
Qed.

Lemma cancel_absent w h :
  (forall a, ~ In (h, a) (frame_callbacks w)) -> cancelAnimationFrame h w = w.
Proof.
  intros Habs. unfold cancelAnimationFrame.
  assert (Hf : filter (fun hc : N * Animate num => negb (fst hc =? h)%N)
                  (frame_callbacks w) = frame_callbacks w).
  { induction (frame_callbacks w) as [|[h' a'] l IH]; [reflexivity|].
    simpl. destruct (N.eqb_spec h' h) as [->|Hne].
    - exfalso. apply (Habs a'). left. reflexivity.
    - simpl. f_equal. apply IH. intros a0 Hin. apply (Habs a0). right. exact Hin. }
  rewrite Hf. destruct w; reflexivity.
Qed.

(** Cancelling the stored handle leaves nothing pending. *)
Lemma cancel_active_idle w :
  single_loop w ->
  frame_callbacks (cancelAnimationFrame (activeLoopHandle w) w) = [].
Proof.
  intros Hinv. destruct (single_loop_shape w Hinv) as [H | (h & a & H & _ & _ & Hact)];
    unfold cancelAnimationFrame; simpl; rewrite H; simpl.
  - reflexivity.
  - rewrite Hact, N.eqb_refl. reflexivity.
Qed.

(** From an idle scheduler a tick leaves either nothing pending or exactly
    its own closure, under a fresh handle that is stored in the state. *)
Lemma animate_from_idle a w :
  frame_callbacks w = [] ->
  (animate a w = w) \/
  (frame_callbacks (animate a w) = [(N.succ (frame_id w), a)] /\
   frame_id (animate a w) = N.succ (frame_id w) /\
   activeLoopHandle (animate a w) = N.succ (frame_id w)).
Proof.
  intros Hidle. destruct (animate_cases a w) as [H | (el & s & Hel & Hs)].
  - left. exact H.
  - right. rewrite (animate_attached a w el s Hel Hs). simpl.
    rewrite Hidle. unfold activeLoopHandle. simpl. auto.
Qed.

Lemma animate_from_idle_single_loop a w :
  frame_callbacks w = [] -> single_loop (animate a w).
Proof.
  intros Hidle. destruct (animate_from_idle a w Hidle) as [H | (Hcb & Hid & Hact)].
  - rewrite H. apply single_loop_idle. assumption.
  - unfold single_loop. rewrite Hcb, Hid, Hact. simpl. split; [lia|].
    intros h a0 [Heq | []]. inversion Heq; subst.
    split; [lia | split; [lia | reflexivity]].
Qed.

Lemma single_loop_handle_zero w :
  single_loop w -> activeLoopHandle w = 0%N -> frame_callbacks w = [].
Proof.
  intros Hinv H0. destruct (single_loop_shape w Hinv) as [H | (h & a & _ & Hne & _ & Hact)].
  - exact H.
  - congruence.
Qed.

(** The effect's first step, [if (sharedState.animationId)
    cancelAnimationFrame(sharedState.animationId)], empties the scheduler. *)
Lemma cancel_before_start_idle w s :
  single_loop w -> sharedMeshState w = Some s ->
  frame_callbacks
    (if (animationId s =? 0)%N then w
     else cancelAnimationFrame (animationId s) w) = [].
Proof.
  intros Hinv Hs.
  assert (Hact : activeLoopHandle w = animationId s)
    by (unfold activeLoopHandle; rewrite Hs; reflexivity).
  destruct (N.eqb_spec (animationId s) 0) as [H0|Hne].
  - apply single_loop_handle_zero; [assumption | congruence].
  - rewrite <- Hact. apply cancel_active_idle. assumption.
Qed.

Lemma useEffect_body_single_loop sc w :
  single_loop w -> single_loop (fst (useEffect_body sc w)).
Proof.
  intros Hinv. unfold useEffect_body.
  destruct (update sc) as [upd|]; [|exact Hinv].
  destruct (sharedMeshState w) as [s|] eqn:Hs; [|exact Hinv].
  simpl. apply animate_from_idle_single_loop.
  apply cancel_before_start_idle; assumption.
Qed.

Lemma cleanup_idle w : single_loop w -> frame_callbacks (cleanup w) = [].
Proof.
  intros Hinv. unfold cleanup.
  destruct (sharedMeshState w) as [s|] eqn:Hs.
  - pose proof (cancel_before_start_idle w s Hinv Hs) as Hc.
    destruct (animationId s =? 0)%N; simpl in *; exact Hc.
  - apply single_loop_handle_zero; [assumption|].
    unfold activeLoopHandle. rewrite Hs. reflexivity.
Qed.

Lemma render_single_loop p v w :
  single_loop w -> single_loop (snd (AnimatedMesh p v w)).
Proof.
  intros Hinv. unfold AnimatedMesh, getSharedMeshState.
  destruct (sharedMeshState w) as [s|] eqn:Hs; simpl.
  - destruct Hinv as [Hlen Hin]. split; [exact Hlen|].
    intros h a Hh. simpl in Hh. destruct (Hin h a Hh) as (H1 & H2 & H3).
    unfold activeLoopHandle in *. simpl. rewrite Hs in *. auto.
  - apply single_loop_idle. simpl.
    apply single_loop_handle_zero; [assumption|].
    unfold activeLoopHandle. rewrite Hs. reflexivity.
Qed.

(** What a display frame does when the invariant holds. *)
Lemma animationFrame_shape w :
  single_loop w ->
  (frame_callbacks w = [] /\ animationFrame w = w) \/
  (exists h a,
     frame_callbacks w = [(h, a)] /\
     frame_callbacks (cancelAnimationFrame h w) = [] /\
     animationFrame w = animate a (cancelAnimationFrame h w)).
Proof.
  intros Hinv.
  destruct (single_loop_shape w Hinv) as [H | (h & a & H & _ & _ & Hact)].
  - left. split; [exact H|]. unfold animationFrame. rewrite H. reflexivity.
  - right. exists h, a. split; [exact H|]. split.
    + rewrite <- Hact. apply cancel_active_idle. assumption.
    + unfold animationFrame. rewrite H. simpl. rewrite H. simpl.
      rewrite N.eqb_refl. reflexivity.
Qed.

Lemma animationFrame_single_loop w :
  single_loop w -> single_loop (animationFrame w).
Proof.
  intros Hinv.
  destruct (animationFrame_shape w Hinv) as [[_ ->] | (h & a & _ & Hidle & ->)].
  - exact Hinv.
  - apply animate_from_idle_single_loop. exact Hidle.
Qed.

Lemma step_single_loop w e : single_loop w -> single_loop (step w e).
Proof.
  intros Hinv. destruct e as [r vw vh | p v | sc | | ]; simpl.
  - exact Hinv.
  - apply render_single_loop. exact Hinv.
  - apply useEffect_body_single_loop. exact Hinv.
  - apply single_loop_idle, cleanup_idle. exact Hinv.
  - apply animationFrame_single_loop. exact Hinv.
Qed.

Lemma run_single_loop evs : forall w, single_loop w -> single_loop (run w evs).
Proof.
  induction evs as [|e evs IH]; intros w Hinv; simpl.
  - exact Hinv.
  - apply IH, step_single_loop, Hinv.
Qed.

Lemma reachable_single_loop r vw vh evs :
  single_loop (run (fresh_page r vw vh) evs).
Proof. apply run_single_loop, single_loop_idle. reflexivity. Qed.

End Loop.

(** ** Interpolation tick *)

(** C2: in every tick with smoothing factor [alpha] and sampled target [T]
    the new shared state is [old + (T - old) * alpha] in each component of
    position and of scale; from position [(0,0,0)] with target [(100,0,0)]
    and [alpha = 0.1] the position is [(10,0,0)] after tick 1 and
    [(19,0,0)] after tick 2, both for the interpolation alone and for the
    loop of a mounted component (whose effect runs tick 1 and whose first
    display frame runs tick 2). *)
Theorem tick_interpolates :
  (forall (num : Type) (NUM : Number num) (a : Animate num) (w : World num)
          (element : HTMLElement num) (old : SharedMeshState num),
     current (a_track a) w = Some element ->
     sharedMeshState w = Some old ->
     let T := getDOMState element (innerWidth w) (innerHeight w) in
     let alpha := a_lerpFactor a in
     exists new,
       sharedMeshState (animate a w) = Some new /\
       position new =
         mkVector3
           (x (position old) + (x (ds_position T) - x (position old)) * alpha)
           (y (position old) + (y (ds_position T) - y (position old)) * alpha)
           (z (position old) + (z (ds_position T) - z (position old)) * alpha) /\
       scale new =
         mkVector3
           (x (scale old) + (x (ds_scale T) - x (scale old)) * alpha)
           (y (scale old) + (y (ds_scale T) - y (scale old)) * alpha)
           (z (scale old) + (z (ds_scale T) - z (scale old)) * alpha))%num
  /\ (lerp (mkVector3 0 0 0) (mkVector3 100 0 0) 0.1 = mkVector3 10 0 0
      /\ lerp (mkVector3 10 0 0) (mkVector3 100 0 0) 0.1 = mkVector3 19 0 0)%float
  /\ (option_map position (sharedMeshState (mount shared_element true page))
        = Some (mkVector3 10 0 0)
      /\ option_map position
           (sharedMeshState (animationFrame (mount shared_element true page)))
        = Some (mkVector3 19 0 0))%float.
Proof.
  split; [|split].
  - intros num NUM a w element old Hel Hold T alpha.
    rewrite (animate_attached a w element old Hel Hold). simpl.
    eexists. split; [reflexivity|]. simpl. split; reflexivity.
  - split; vm_compute; reflexivity.
  - split; vm_compute; reflexivity.
Qed.

Lemma tick_interpolates_witness :
  let a := mkAnimate 0%nat 0.1%float true "shared-element" in
  let w := snd (AnimatedMesh shared_element true page) in
  current (a_track a) w = Some anchor_right /\
  sharedMeshState w = Some initialSharedMeshState /\
  exists new,
    sharedMeshState (animate a w) = Some new /\
    position new = (mkVector3 10 0 0)%float /\
    scale new = (mkVector3 8.9000000000000004 8.9000000000000004 1)%float.
Proof.
  intros a w.
  split; [reflexivity | split; [reflexivity|]].
  destruct (proj1 tick_interpolates float _ a w anchor_right
              initialSharedMeshState eq_refl eq_refl)
    as (new & Hnew & Hpos & Hscale).
  exists new. split; [exact Hnew|].
  rewrite Hpos, Hscale. split; vm_compute; reflexivity.
Defined.

(** ** Missing anchor *)

(** C8: a tick that runs while the tracked element reference is unset
    returns normally and changes nothing: position, scale and every other
    part of the page are as before, and no call reaches the render surface. *)
Theorem detached_tick_is_noop (num : Type) (NUM : Number num)
  (a : Animate num) (w : World num) :
  current (a_track a) w = None ->
  animate a w = w /\
  option_map position (sharedMeshState (animate a w))
    = option_map position (sharedMeshState w) /\
  option_map scale (sharedMeshState (animate a w))
    = option_map scale (sharedMeshState w) /\
  calls (animate a w) = calls w.
Proof.
  intros H. rewrite (animate_detached a w H). repeat split.
Qed.

Lemma detached_tick_is_noop_witness :
  let a := mkAnimate 1%nat 0.1%float true "shared-element" in
  let w := mount shared_element true page in
  current (a_track a) w = None /\ animate a w = w.
Proof.
  intros a w. split; [reflexivity|].
  exact (proj1 (detached_tick_is_noop float _ a w eq_refl)).
Defined.

(** ** Shared animation state *)

(** C6: [getSharedMeshState] is an idempotent singleton accessor.  When
    [window.sharedMeshState] is undefined the call creates it with position
    [(0,0,0)], scale [(1,1,1)] and no loop handle; otherwise it returns the
    stored object and changes nothing.  Either way the object returned is
    the one stored afterwards, and every later call returns it again and
    leaves the page as it is. *)
Theorem getSharedMeshState_singleton (num : Type) (NUM : Number num)
  (w : World num) :
  let s := fst (getSharedMeshState w) in
  let w1 := snd (getSharedMeshState w) in
  (sharedMeshState w = None ->
     s = mkShared (mkVector3 n0 n0 n0) (mkVector3 n1 n1 n1) 0%N /\
     w1 = set_sharedMeshState (Some s) w) /\
  (forall s0, sharedMeshState w = Some s0 -> s = s0 /\ w1 = w) /\
  sharedMeshState w1 = Some s /\
  forall n : nat,
    let wn := Nat.iter n (fun w' => snd (getSharedMeshState w')) w1 in
    wn = w1 /\ getSharedMeshState wn = (s, w1).
Proof.
  intros s w1.
  assert (Hstored : sharedMeshState w1 = Some s).
  { subst s w1. unfold getSharedMeshState.
    destruct (sharedMeshState w) eqn:Hw; simpl; [exact Hw | reflexivity]. }
  assert (Hagain : getSharedMeshState w1 = (s, w1)).
  { unfold getSharedMeshState at 1. rewrite Hstored. reflexivity. }
  split; [|split; [|split]].
  - intros Hnone. subst s w1. unfold getSharedMeshState. rewrite Hnone.
    simpl. split; reflexivity.
  - intros s0 Hsome. subst s w1. unfold getSharedMeshState. rewrite Hsome.
    simpl. split; reflexivity.
  - exact Hstored.
  - intros n. simpl.
    assert (Hn : Nat.iter n (fun w' => snd (getSharedMeshState w')) w1 = w1).
    { induction n as [|n IH]; simpl; [reflexivity|].
      rewrite IH, Hagain. reflexivity. }
    rewrite Hn. split; [reflexivity | exact Hagain].
Qed.

Lemma getSharedMeshState_singleton_witness :
  sharedMeshState page = None /\
  fst (getSharedMeshState page)
    = (mkShared (mkVector3 0 0 0) (mkVector3 1 1 1) 0%N)%float /\
  getSharedMeshState (snd (getSharedMeshState page))
    = (fst (getSharedMeshState page), snd (getSharedMeshState page)).
Proof.
  pose proof (getSharedMeshState_singleton float _ page) as H.
  cbv zeta in H. destruct H as (Hfirst & _ & _ & Hlater).
  split; [reflexivity|]. split.
  - exact (proj1 (Hfirst eq_refl)).
  - exact (proj2 (Hlater 0%nat)).
Defined.

(** ** Visibility tracker *)

(** C9: the tracker's boolean only supplies the [visible] field pushed to
    the render proxy.  Two runs of a tick from the same page that differ
    only in the [inViewport] flag leave the same shared state (position,
    scale and handle) and make the same calls up to [visible]; when the
    element is attached each pushes one update with the same position and
    scale arrays, carrying its own flag. *)
Theorem inViewport_only_gates_visible (num : Type) (NUM : Number num)
  (tr : Ref) (lf : num) (upd : string) (v1 v2 : bool) (w : World num) :
  let a1 := mkAnimate tr lf v1 upd in
  let a2 := mkAnimate tr lf v2 upd in
  sharedMeshState (animate a1 w) = sharedMeshState (animate a2 w) /\
  map geometry_of_call (calls (animate a1 w))
    = map geometry_of_call (calls (animate a2 w)) /\
  (forall element s,
     current tr w = Some element -> sharedMeshState w = Some s ->
     exists pos scl,
       calls (animate a1 w)
         = calls w ++ [update_call upd (mkProps pos scl v1); requestRender_call] /\
       calls (animate a2 w)
         = calls w ++ [update_call upd (mkProps pos scl v2); requestRender_call]).
Proof.
  intros a1 a2.
  destruct (current tr w) as [el|] eqn:Hel.
  - destruct (sharedMeshState w) as [s|] eqn:Hs.
    + rewrite (animate_attached a1 w el s Hel Hs).
      rewrite (animate_attached a2 w el s Hel Hs). simpl.
      split; [reflexivity|]. split.
      * rewrite !map_app. reflexivity.
      * intros element s0 Helem Hs0. inversion Helem; inversion Hs0; subst.
        eexists. eexists. rewrite <- !app_assoc. simpl. split; reflexivity.
    + rewrite (animate_no_state a1 w Hs), (animate_no_state a2 w Hs).
      split; [reflexivity|]. split; [reflexivity|].
      intros element s _ Habs. discriminate.
  - rewrite (animate_detached a1 w Hel), (animate_detached a2 w Hel).
    split; [reflexivity|]. split; [reflexivity|].
    intros element s Habs. discriminate.
Qed.

Lemma inViewport_only_gates_visible_witness :
  let w := mount shared_element true page in
  exists pos scl,
    calls (animate (mkAnimate 0%nat 0.1%float true "shared-element") w)
      = calls w ++ [update_call "shared-element" (mkProps pos scl true);
                    requestRender_call] /\
    calls (animate (mkAnimate 0%nat 0.1%float false "shared-element") w)
      = calls w ++ [update_call "shared-element" (mkProps pos scl false);
                    requestRender_call].
Proof.
  intros w.
  exact (proj2 (proj2 (inViewport_only_gates_visible float _ 0%nat 0.1%float
                         "shared-element" true false w))
           anchor_right
           (mkShared (mkVector3 10 0 0)
              (mkVector3 8.9000000000000004 8.9000000000000004 1) 1%N)%float
           eq_refl eq_refl).
Defined.

(** ** Remount *)

Section Remount.

Context {num : Type} {NUM : Number num}.

(** The effect of a render whose [update] is defined, seen from a page that
    holds the shared state: the stored handle is cancelled and the tick runs. *)
Lemma useEffect_body_started (tr : Ref) (lf : num) (v : bool) (upd : string)
  (w : World num) (s : SharedMeshState num) :
  sharedMeshState w = Some s ->
  fst (useEffect_body (mkScope tr lf v (Some upd)) w)
  = animate (mkAnimate tr lf v upd)
      (if (animationId s =? 0)%N then w
       else cancelAnimationFrame (animationId s) w).
Proof.
  intros Hs. unfold useEffect_body. simpl. rewrite Hs. reflexivity.
Qed.

Lemma mount_unfold (p : AnimatedMeshProps num) (v : bool) (w : World num) :
  mount p v w
  = fst (useEffect_body (fst (AnimatedMesh p v w)) (snd (AnimatedMesh p v w))).
Proof.
  unfold mount. destruct (AnimatedMesh p v w) as [sc w1]. reflexivity.
Qed.

End Remount.

(** C10: on every mount, and so on a remount after navigation, the proxy is
    registered with the position and scale of the shared singleton, as
    [getSharedMeshState] returns it at that render.  When the singleton
    exists already these are its stored values, the last interpolated ones:
    unmounting (the cleanup) and a change of layout keep them, the render
    passes them to [useCanvas] unchanged, and the first tick of the new
    mount interpolates from them. *)
Theorem remount_resumes_from_shared_state (num : Type) (NUM : Number num)
  (p : AnimatedMeshProps num) (v : bool) (w : World num) :
  let s := fst (getSharedMeshState w) in
  calls (snd (AnimatedMesh p v w))
    = calls w
      ++ [useCanvas_call (id p)
            (mkProps [x (position s); y (position s); z (position s)]
                     [x (scale s); y (scale s); z (scale s)] v)
            false] /\
  sharedMeshState (snd (AnimatedMesh p v w)) = Some s /\
  forall s0 : SharedMeshState num,
    sharedMeshState w = Some s0 ->
    s = s0 /\
    (forall r vw vh,
       let w' := set_layout r vw vh (cleanup w) in
       option_map position (sharedMeshState w') = Some (position s0) /\
       option_map scale (sharedMeshState w') = Some (scale s0)) /\
    (forall element,
       current (am_track p) w = Some element ->
       let T := getDOMState element (innerWidth w) (innerHeight w) in
       let alpha := match am_lerpFactor p with Some a => a | None => n0_1 end in
       option_map position (sharedMeshState (mount p v w))
         = Some (lerp (position s0) (ds_position T) alpha) /\
       option_map scale (sharedMeshState (mount p v w))
         = Some (lerp (scale s0) (ds_scale T) alpha)).
Proof.
  intros s. split; [|split].
  - subst s. unfold AnimatedMesh.
    destruct (getSharedMeshState w) as [s1 w1] eqn:Hget. simpl.
    unfold getSharedMeshState in Hget.
    destruct (sharedMeshState w); inversion Hget; subst; reflexivity.
  - subst s. unfold AnimatedMesh, getSharedMeshState.
    destruct (sharedMeshState w) as [s1|] eqn:Hs; simpl; [exact Hs | reflexivity].
  - intros s0 Hs.
    assert (Heq : s = s0)
      by (subst s; unfold getSharedMeshState; rewrite Hs; reflexivity).
    split; [exact Heq|]. clear Heq s. split.
    + intros r vw vh. simpl. unfold cleanup. rewrite Hs.
      destruct (animationId s0 =? 0)%N; simpl; [rewrite Hs|]; split; reflexivity.
    + intros element Hel T alpha. rewrite mount_unfold.
      unfold AnimatedMesh, getSharedMeshState. rewrite Hs. simpl.
      match goal with
      | |- context [useEffect_body ?sc ?w1] =>
          rewrite (useEffect_body_started _ _ _ _ w1 s0 Hs)
      end.
      match goal with
      | |- context [animate ?a ?w2] =>
          assert (Hel2 : current (a_track a) w2 = Some element)
            by (destruct (animationId s0 =? 0)%N; exact Hel);
          assert (Hs2 : sharedMeshState w2 = Some s0)
            by (destruct (animationId s0 =? 0)%N; exact Hs);
          rewrite (animate_attached a w2 element s0 Hel2 Hs2)
      end.
      simpl. destruct (animationId s0 =? 0)%N; split; reflexivity.
Qed.

(** The scenario of a navigation: the component is mounted on [page], one
    display frame passes (position [(19,0,0)]), the page is left (cleanup),
    the next page lays out another anchor, and the component mounts again:
    the registration carries [(19,0,0)], not the default [(0,0,0)]. *)
Lemma remount_resumes_from_shared_state_witness :
  let w :=
    run page [ev_render shared_element true;
              ev_effect (fst (AnimatedMesh shared_element true page));
              ev_frame; ev_cleanup; ev_layout [Some anchor] 1000%float 800%float] in
  let s :=
    (mkShared (mkVector3 19 0 0)
       (mkVector3 16.009999999999998 16.009999999999998 1) 0%N)%float in
  sharedMeshState w = Some s /\
  calls (snd (AnimatedMesh shared_element false w))
    = calls w
      ++ [useCanvas_call "shared-element"
            (mkProps [19; 0; 0]
               [16.009999999999998; 16.009999999999998; 1] false)%float
            false] /\
  option_map position (sharedMeshState (mount shared_element false w))
    = Some (lerp (position s) (ds_position (getDOMState anchor 1000 800)) 0.1)%float.
Proof.
  intros w s.
  pose proof (remount_resumes_from_shared_state float _ shared_element false w)
    as H.
  cbv zeta in H. destruct H as (Hcalls & _ & Hsome).
  destruct (Hsome s eq_refl) as (_ & _ & Htick).
  split; [reflexivity|]. split.
  - exact Hcalls.
  - exact (proj1 (Htick anchor eq_refl)).
Defined.

(** ** Loops that have ended *)

Section Idle.

Context {num : Type} {NUM : Number num}.

Implicit Types (w : World num).

Lemma animationFrame_idle w : frame_callbacks w = [] -> animationFrame w = w.
Proof. intros H. unfold animationFrame. rewrite H. reflexivity. Qed.

(** With nothing pending, display frames and layout changes run no tick:
    the shared state and the calls stay as they are and nothing becomes
    pending. *)
Lemma idle_stays_idle (ps : list (Passive num)) :
  forall w, frame_callbacks w = [] ->
    let w' := run w (map event_of ps) in
    frame_callbacks w' = [] /\
    sharedMeshState w' = sharedMeshState w /\
    calls w' = calls w /\
    frame_id w' = frame_id w.
Proof.
  induction ps as [|p ps IH]; intros w Hidle; simpl.
  - auto.
  - destruct p as [r vw vh|]; simpl.
    + destruct (IH (set_layout r vw vh w) Hidle) as (H1 & H2 & H3 & H4).
      auto.
    + rewrite (animationFrame_idle w Hidle). apply IH. exact Hidle.
Qed.

Lemma cancel_twice (h : N) w :
  cancelAnimationFrame h (cancelAnimationFrame h w) = cancelAnimationFrame h w.
Proof.
  apply cancel_absent. intros a Hin. unfold cancelAnimationFrame in Hin.
  simpl in Hin. apply filter_In in Hin. destruct Hin as [_ Hneq].
  simpl in Hneq. rewrite N.eqb_refl in Hneq. discriminate.
Qed.

Lemma cleanup_unset w : activeLoopHandle w = 0%N -> cleanup w = w.
Proof.
  unfold activeLoopHandle, cleanup. destruct (sharedMeshState w) as [s|].
  - intros ->. reflexivity.
  - reflexivity.
Qed.

Lemma cleanup_clears w : activeLoopHandle (cleanup w) = 0%N.
Proof.
  unfold cleanup, activeLoopHandle.
  destruct (sharedMeshState w) as [s|] eqn:Hs.
  - destruct (N.eqb_spec (animationId s) 0) as [H0|Hne]; simpl.
    + rewrite Hs. exact H0.
    + reflexivity.
  - rewrite Hs. reflexivity.
Qed.

End Idle.

(** C4, as the code has it: a tick that finds the tracked element reference
    unset skips its update and returns without scheduling another tick.
    After the display frame that ran it nothing is pending and no handle was
    issued; the shared state is untouched; and the loop does not resume in
    later frames, whatever the layout becomes. *)
Theorem detached_tick_ends_loop (num : Type) (NUM : Number num)
  (w : World num) (h : N) (a : Animate num) :
  frame_callbacks w = [(h, a)] ->
  current (a_track a) w = None ->
  animationFrame w = cancelAnimationFrame h w /\
  frame_callbacks (animationFrame w) = [] /\
  frame_id (animationFrame w) = frame_id w /\
  sharedMeshState (animationFrame w) = sharedMeshState w /\
  forall ps : list (Passive num),
    frame_callbacks (run (animationFrame w) (map event_of ps)) = [] /\
    sharedMeshState (run (animationFrame w) (map event_of ps))
      = sharedMeshState w.
Proof.
  intros Hcb Hel.
  assert (Hframe : animationFrame w = cancelAnimationFrame h w).
  { unfold animationFrame. rewrite Hcb. simpl. rewrite Hcb. simpl.
    rewrite N.eqb_refl. apply animate_detached. exact Hel. }
  assert (Hidle : frame_callbacks (cancelAnimationFrame h w) = []).
  { unfold cancelAnimationFrame. simpl. rewrite Hcb. simpl.
    rewrite N.eqb_refl. reflexivity. }
  rewrite Hframe. split; [reflexivity|]. split; [exact Hidle|].
  split; [reflexivity|]. split; [reflexivity|].
  intros ps.
  destruct (idle_stays_idle ps (cancelAnimationFrame h w) Hidle)
    as (H1 & H2 & _ & _).
  split; [exact H1 | exact H2].
Qed.

Lemma detached_tick_ends_loop_witness :
  let w := set_layout [None] 1000%float 800%float
             (mount shared_element true page) in
  let a := mkAnimate 0%nat 0.1%float true "shared-element" in
  frame_callbacks w = [(1%N, a)] /\
  current (a_track a) w = None /\
  frame_callbacks (animationFrame w) = [].
Proof.
  intros w a. split; [reflexivity|]. split; [reflexivity|].
  exact (proj1 (proj2 (detached_tick_ends_loop float _ w 1%N a
                         eq_refl eq_refl))).
Defined.

(** C4, as the claim has it, fails: the component is mounted on [page], the
    element detaches and a display frame runs.  The tick did not schedule
    another one; when the element is attached again, two more frames leave
    the state where it was. *)
Lemma detached_tick_not_rescheduled :
  let w := set_layout [None] 1000%float 800%float
             (mount shared_element true page) in
  List.length (frame_callbacks w) = 1%nat /\
  current 0%nat w = None /\
  frame_callbacks (animationFrame w) = [] /\
  frame_id (animationFrame w) = frame_id w /\
  sharedMeshState
    (run (animationFrame w)
       [ev_layout [Some anchor_right] 1000%float 800%float; ev_frame; ev_frame])
    = sharedMeshState w.
Proof. vm_compute. repeat split. Qed.

(** ** Cancellation *)

(** C5: cancellation is idempotent.  After the cleanup the stored handle is
    [0], a second cleanup changes nothing at all, a cleanup on an unset
    handle changes nothing, and [cancelAnimationFrame] on a handle that is
    not pending (never issued, or cancelled before) changes nothing.  On
    every page reached from a fresh one, nothing is pending after the
    cleanup, so no tick of the cancelled loop runs: display frames and
    layout changes leave the shared state and the calls as they are. *)
Theorem cleanup_idempotent (num : Type) (NUM : Number num) (w : World num) :
  activeLoopHandle (cleanup w) = 0%N /\
  activeLoopHandle (cleanup (cleanup w)) = 0%N /\
  cleanup (cleanup w) = cleanup w /\
  (activeLoopHandle w = 0%N -> cleanup w = w) /\
  (forall h, (forall a, ~ In (h, a) (frame_callbacks w)) ->
             cancelAnimationFrame h w = w) /\
  (forall h, cancelAnimationFrame h (cancelAnimationFrame h w)
             = cancelAnimationFrame h w) /\
  (forall r vw vh evs (ps : list (Passive num)),
     let wc := cleanup (run (fresh_page r vw vh) evs) in
     frame_callbacks wc = [] /\
     sharedMeshState (run wc (map event_of ps)) = sharedMeshState wc /\
     calls (run wc (map event_of ps)) = calls wc).
Proof.
  split; [apply cleanup_clears|].
  split; [apply cleanup_clears|].
  split; [apply cleanup_unset, cleanup_clears|].
  split; [apply cleanup_unset|].
  split; [intros h; apply cancel_absent|].
  split; [intros h; apply cancel_twice|].
  intros r vw vh evs ps wc.
  assert (Hidle : frame_callbacks wc = [])
    by (apply cleanup_idle, reachable_single_loop).
  destruct (idle_stays_idle ps wc Hidle) as (H1 & H2 & H3 & _).
  auto.
Qed.

(** A running loop is cancelled twice: handle 1 is removed by the first
    cleanup, and the second finds the handle unset. *)
Lemma cleanup_idempotent_witness :
  let w := mount shared_element true page in
  activeLoopHandle w = 1%N /\
  activeLoopHandle (cleanup w) = 0%N /\
  cleanup (cleanup w) = cleanup w /\
  cancelAnimationFrame 1 (cleanup w) = cleanup w.
Proof.
  intros w.
  pose proof (cleanup_idempotent float _ w) as (H1 & _ & H3 & _).
  pose proof (cleanup_idempotent float _ (cleanup w)) as (_ & _ & _ & _ & H5 & _).
  split; [reflexivity|]. split; [exact H1|]. split; [exact H3|].
  apply H5. intros a Hin. vm_compute in Hin. exact Hin.
Defined.

(** ** Single active loop *)

Section SingleLoop.

Context {num : Type} {NUM : Number num}.

Implicit Types (w : World num) (a : Animate num).

(** A mount is one tick of its own closure, run on a page where the stored
    handle has been cancelled. *)
Lemma mount_shape (p : AnimatedMeshProps num) (v : bool) w :
  single_loop w ->
  exists w',
    frame_callbacks w' = [] /\ frame_id w' = frame_id w /\
    current (am_track p) w' = current (am_track p) w /\
    (exists s, sharedMeshState w' = Some s) /\
    mount p v w = animate (closure_of p v) w'.
Proof.
  intros Hinv. rewrite mount_unfold.
  pose proof (render_single_loop p v w Hinv) as Hinv2.
  assert (Hst : exists s, sharedMeshState (snd (AnimatedMesh p v w)) = Some s).
  { unfold AnimatedMesh, getSharedMeshState.
    destruct (sharedMeshState w) as [s|] eqn:Hs; simpl; eauto. }
  destruct Hst as [s Hs].
  assert (Hsc : fst (AnimatedMesh p v w)
                = mkScope (am_track p)
                    (match am_lerpFactor p with Some a => a | None => n0_1 end)
                    v (Some (id p))).
  { unfold AnimatedMesh. destruct (getSharedMeshState w). reflexivity. }
  assert (Hfid : frame_id (snd (AnimatedMesh p v w)) = frame_id w).
  { unfold AnimatedMesh, getSharedMeshState.
    destruct (sharedMeshState w); reflexivity. }
  assert (Hcur : current (am_track p) (snd (AnimatedMesh p v w))
                 = current (am_track p) w).
  { unfold AnimatedMesh, getSharedMeshState.
    destruct (sharedMeshState w); reflexivity. }
  rewrite Hsc, (useEffect_body_started _ _ _ _ _ s Hs).
  eexists. split; [|split; [|split; [|split; [|reflexivity]]]].
  - apply cancel_before_start_idle; assumption.
  - destruct (animationId s =? 0)%N; exact Hfid.
  - destruct (animationId s =? 0)%N; exact Hcur.
  - exists s. destruct (animationId s =? 0)%N; exact Hs.
Qed.

Lemma owned_by_tick a f0 w :
  frame_callbacks w = [] -> (f0 <= frame_id w)%N ->
  owned_by a f0 (animate a w).
Proof.
  intros Hidle Hf0.
  pose proof (animate_from_idle_single_loop a w Hidle) as Hinv.
  destruct (animate_from_idle a w Hidle) as [H | (Hcb & Hid & _)].
  - rewrite H in *. split; [exact Hinv|]. split; [exact Hf0|].
    rewrite Hidle. intros h a' [].
  - split; [exact Hinv|]. rewrite Hcb, Hid. split; [lia|].
    intros h a' [Heq | []]. inversion Heq; subst. split; [reflexivity | lia].
Qed.

Lemma owned_by_passive a f0 (ps : list (Passive num)) :
  forall w, owned_by a f0 w -> owned_by a f0 (run w (map event_of ps)).
Proof.
  induction ps as [|e ps IH]; intros w Hown; simpl; [exact Hown|].
  apply IH. destruct e as [r vw vh|]; simpl.
  - exact Hown.
  - destruct Hown as (Hinv & Hf0 & Hall).
    destruct (animationFrame_shape w Hinv)
      as [[_ ->] | (h & a' & Hcb & Hidle & ->)].
    + split; [exact Hinv|]. split; assumption.
    + assert (a' = a) as -> by (apply (Hall h a'); rewrite Hcb; left; reflexivity).
      apply owned_by_tick; assumption.
Qed.

End SingleLoop.

(** C3, as the code has it: on every page reached from a fresh one at most
    one frame callback is pending, and its handle is the stored one.  When a
    component mounts on such a page (for instance while another loop is
    active) the effect cancels the stored handle before it runs its tick:
    afterwards exactly one callback is pending when the element of the new
    instance is attached, and none when it is not.  From then on, through
    display frames and layout changes, every pending callback is the new
    instance's closure under a handle issued after the mount, so no tick of
    the earlier chain runs. *)
Theorem single_active_loop (num : Type) (NUM : Number num)
  (r : list (option (HTMLElement num))) (vw vh : num)
  (evs : list (Event num)) (p : AnimatedMeshProps num) (v : bool) :
  let w1 := run (fresh_page r vw vh) evs in
  let w2 := mount p v w1 in
  (List.length (frame_callbacks w1) <= 1)%nat /\
  (forall h a, In (h, a) (frame_callbacks w1) ->
     activeLoopHandle w1 = h /\ (h <= frame_id w1)%N) /\
  match current (am_track p) w1 with
  | Some _ =>
      frame_callbacks w2 = [(N.succ (frame_id w1), closure_of p v)] /\
      activeLoopHandle w2 = N.succ (frame_id w1)
  | None => frame_callbacks w2 = []
  end /\
  forall (ps : list (Passive num)) h a,
    In (h, a) (frame_callbacks (run w2 (map event_of ps))) ->
    a = closure_of p v /\ (frame_id w1 < h)%N.
Proof.
  intros w1 w2.
  assert (Hinv : single_loop w1) by apply reachable_single_loop.
  destruct (mount_shape p v w1 Hinv)
    as (w' & Hidle & Hfid & Hcur & (s & Hs) & Hmount).
  fold w2 in Hmount.
  split; [apply Hinv|]. split.
  { intros h a Hin. destruct Hinv as [_ Hall].
    destruct (Hall h a Hin) as (_ & Hle & Hact). auto. }
  split.
  - rewrite Hmount, <- Hcur, <- Hfid.
    destruct (current (am_track p) w') as [el|] eqn:Hel.
    + rewrite (animate_attached (closure_of p v) w' el s Hel Hs). simpl.
      rewrite Hidle. unfold activeLoopHandle. simpl. auto.
    + rewrite (animate_detached (closure_of p v) w' Hel). exact Hidle.
  - intros ps h a Hin.
    assert (Hown : owned_by (closure_of p v) (frame_id w1) w2).
    { rewrite Hmount. apply owned_by_tick; [exact Hidle | lia]. }
    destruct (owned_by_passive _ _ ps w2 Hown) as (_ & _ & Hall).
    exact (Hall h a Hin).
Qed.

(** A second instance with its own factor mounts while the loop of the
    first is pending under handle 1: afterwards only the second closure is
    pending, under handle 2, and it stays the only owner in the next frame. *)
Lemma single_active_loop_witness :
  let second := mkAnimatedMeshProps "shared-element" 0%nat (Some 0.5%float) in
  let w1 :=
    run page [ev_render shared_element true;
              ev_effect (fst (AnimatedMesh shared_element true page))] in
  let w2 := mount second true w1 in
  frame_callbacks w1 = [(1%N, closure_of shared_element true)] /\
  frame_callbacks w2 = [(2%N, closure_of second true)] /\
  forall h a,
    In (h, a) (frame_callbacks (animationFrame w2)) ->
    a = closure_of second true /\ (1 < h)%N.
Proof.
  intros second w1 w2.
  pose proof (single_active_loop float _ [Some anchor_right] 1000%float
                800%float
                [ev_render shared_element true;
                 ev_effect (fst (AnimatedMesh shared_element true page))]
                second true) as H.
  cbv zeta in H. destruct H as (_ & _ & Hone & Hown).
  split; [reflexivity|]. split.
  - exact (proj1 Hone).
  - intros h a Hin. exact (Hown [pv_frame] h a Hin).
Defined.

(** C3, as the claim has it, fails: a loop is active on [page] (one
    callback pending) and a second instance, whose element never attaches,
    mounts.  Its effect cancels the active handle and its tick returns at
    the guard, so no callback chain survives. *)
Lemma second_start_can_leave_no_loop :
  let w1 := mount shared_element true page in
  let w2 := mount detached_element true w1 in
  List.length (frame_callbacks w1) = 1%nat /\
  activeLoopHandle w1 = 1%N /\
  List.length (frame_callbacks w2) = 0%nat.
Proof. vm_compute. repeat split. Qed.

(** ** Convergence *)

Section Ticks.

Context {num : Type} {NUM : Number num}.
Local Open Scope num_scope.

Lemma ticks_components (n : nat) (alpha : num) (T : DOMState num)
  (s : SharedMeshState num) :
  components (ticks n alpha T s)
  = [tick_component alpha (x (ds_position T)) n (x (position s));
     tick_component alpha (y (ds_position T)) n (y (position s));
     tick_component alpha (z (ds_position T)) n (z (position s));
     tick_component alpha (x (ds_scale T)) n (x (scale s));
     tick_component alpha (y (ds_scale T)) n (y (scale s));
     tick_component alpha (z (ds_scale T)) n (z (scale s))].
Proof.
  induction n as [|n IH]; [reflexivity|].
  change (ticks (S n) alpha T s) with (interpolate (ticks n alpha T s) T alpha).
  unfold components in IH. injection IH as H1 H2 H3 H4 H5 H6.
  unfold components, interpolate, lerp. simpl.
  rewrite H1, H2, H3, H4, H5, H6. reflexivity.
Qed.

(** Each display frame of a running loop is one interpolation step. *)
Lemma running_frame a element vw vh st w :
  running a element vw vh st w ->
  running a element vw vh
    (interpolate st (getDOMState element vw vh) (a_lerpFactor a))
    (animationFrame w).
Proof.
  intros ((h & Hcb) & Hel & Hvw & Hvh & s & Hs & Hpos & Hscale).
  assert (Hframe : animationFrame w = animate a (cancelAnimationFrame h w)).
  { unfold animationFrame. rewrite Hcb. simpl. rewrite Hcb. simpl.
    rewrite N.eqb_refl. reflexivity. }
  rewrite Hframe.
  rewrite (animate_attached a (cancelAnimationFrame h w) element s Hel Hs).
  unfold running. simpl. rewrite Hcb. simpl. rewrite N.eqb_refl. simpl.
  split; [eexists; reflexivity|]. split; [exact Hel|].
  split; [exact Hvw|]. split; [exact Hvh|].
  eexists. split; [reflexivity|]. simpl.
  rewrite Hvw, Hvh, Hpos, Hscale. split; reflexivity.
Qed.

Lemma running_frames a element vw vh st w (n : nat) :
  running a element vw vh st w ->
  running a element vw vh
    (ticks n (a_lerpFactor a) (getDOMState element vw vh) st)
    (Nat.iter n animationFrame w).
Proof.
  intros Hrun. induction n as [|n IH]; [exact Hrun|].
  simpl. apply running_frame. exact IH.
Qed.

End Ticks.

Section ExactTicks.

Local Open Scope Q_scope.

(** Without rounding, [n] ticks with factor one tenth leave nine tenths to
    the power [n] of the initial distance. *)
Lemma tick_component_exact (t c0 : Q) (n : nat) :
  tick_component (1 # 10) t n c0 - t == (c0 - t) * (9 # 10) ^ Z.of_nat n.
Proof.
  induction n as [|n IH].
  - unfold tick_component. simpl. ring.
  - change (tick_component (1 # 10) t (S n) c0)
      with (tick_component (1 # 10) t n c0
            + (t - tick_component (1 # 10) t n c0) * (1 # 10)).
    rewrite Nat2Z.inj_succ. unfold Z.succ.
    rewrite Qpower_plus by (intros H; discriminate H).
    setoid_replace
      (tick_component (1 # 10) t n c0
       + (t - tick_component (1 # 10) t n c0) * (1 # 10) - t)
      with ((tick_component (1 # 10) t n c0 - t) * (9 # 10)) by ring.
    rewrite IH. simpl. ring.
Qed.

Lemma tick_component_decay (t c0 : Q) (n : nat) :
  decay_bound n c0 t (tick_component (1 # 10) t n c0).
Proof.
  unfold decay_bound. rewrite tick_component_exact, Qabs_Qmult.
  rewrite (Qabs_pos ((9 # 10) ^ Z.of_nat n)).
  - apply Qle_refl.
  - apply Qpower_0_le. discriminate.
Qed.

(** The same for the loop itself: [n] display frames of a running loop with
    the default factor, read without rounding. *)
Corollary running_loop_decay (a : Animate Q) (element : HTMLElement Q)
  (vw vh : Q) (s : SharedMeshState Q) (w : World Q) (n : nat) :
  running a element vw vh s w ->
  a_lerpFactor a = n0_1 ->
  exists s',
    sharedMeshState (Nat.iter n animationFrame w) = Some s' /\
    forall i : nat,
      decay_bound n (nth i (components s) 0)
        (nth i (target_components (getDOMState element vw vh)) 0)
        (nth i (components s') 0).
Proof.
  intros Hrun Hlf.
  destruct (running_frames a element vw vh s w n Hrun)
    as (_ & _ & _ & _ & s' & Hs' & Hpos & Hscale).
  exists s'. split; [exact Hs'|]. intros i.
  assert (Hc : components s'
               = components (ticks n n0_1 (getDOMState element vw vh) s))
    by (unfold components; rewrite Hpos, Hscale, Hlf; reflexivity).
  rewrite Hc, ticks_components.
  do 6 (destruct i as [|i]; [apply tick_component_decay|]).
  destruct i; unfold decay_bound; simpl;
    apply Qmult_le_0_compat; try discriminate; apply Qpower_0_le; discriminate.
Qed.

End ExactTicks.

(** C7, as it holds: without rounding (over the rationals), for every
    initial state, every fixed target and every [n], [n] ticks of the
    interpolation with factor one tenth leave each component of position
    and scale within [|initial - target| * (9/10)^n] of the target. *)
Theorem decay_bound_exact (s : SharedMeshState Q) (T : DOMState Q) (n : nat) :
  let s' := ticks n n0_1 T s in
  decay_bound n (x (position s)) (x (ds_position T)) (x (position s')) /\
  decay_bound n (y (position s)) (y (ds_position T)) (y (position s')) /\
  decay_bound n (z (position s)) (z (ds_position T)) (z (position s')) /\
  decay_bound n (x (scale s)) (x (ds_scale T)) (x (scale s')) /\
  decay_bound n (y (scale s)) (y (ds_scale T)) (y (scale s')) /\
  decay_bound n (z (scale s)) (z (ds_scale T)) (z (scale s')).
Proof.
  intros s'. pose proof (ticks_components n n0_1 T s) as Hc.
  fold s' in Hc. unfold components in Hc.
  injection Hc as H1 H2 H3 H4 H5 H6.
  rewrite H1, H2, H3, H4, H5, H6.
  repeat split; apply tick_component_decay.
Qed.

(** C7, as the claim has it, fails at binary64, the arithmetic of the
    program.  From the initial state towards the sample of [anchor_right]
    (position x from 0 to 100), 1000 ticks with factor [0.1] stop at
    [99.999999999999943]: a further tick returns the same state, the
    distance to the target no longer shrinks, and the bound
    [100 * 0.9^1000] is exceeded.  The mounted loop computes the same
    value. *)
Lemma decay_bound_fails_binary64 :
  let T := getDOMState anchor_right 1000%float 800%float in
  let s := ticks 1000 0.1%float T initialSharedMeshState in
  x (ds_position T) = 100%float /\
  x (position s) = 99.999999999999943%float /\
  interpolate s T 0.1%float = s /\
  decay_bound_binary64 1000 0%float 100%float (x (position s)) = false /\
  option_map position
    (sharedMeshState (Nat.iter 999 animationFrame (mount shared_element true page)))
  = Some (position s).
Proof. vm_compute. repeat split. Qed.


(** * Further properties of the component *)

(** ** The call log *)

Section CallLog.

Context {num : Type} {NUM : Number num}.

Implicit Types (w : World num) (a : Animate num).






End CallLog.


Section LastMount.

Context {num : Type} {NUM : Number num}.

Implicit Types (w : World num) (a : Animate num).


End LastMount.


Section MountedLoop.

Context {num : Type} {NUM : Number num}.

Implicit Types (w : World num) (a : Animate num).

Lemma ticks_shift (n : nat) (alpha : num) (T : DOMState num)
  (s : SharedMeshState num) :
  ticks n alpha T (interpolate s T alpha) = ticks (S n) alpha T s.
Proof.
  induction n as [|n IH]; [reflexivity|].
  change (ticks (S n) alpha T (interpolate s T alpha))
    with (interpolate (ticks n alpha T (interpolate s T alpha)) T alpha).
  rewrite IH. reflexivity.
Qed.

(** A mount on an attached element leaves a running loop whose state is one
    interpolation step away from the state found at the mount. *)
Lemma mount_running (p : AnimatedMeshProps num) (v : bool) w
  (element : HTMLElement num) :
  single_loop w ->
  current (am_track p) w = Some element ->
  running (closure_of p v) element (innerWidth w) (innerHeight w)
    (interpolate (fst (getSharedMeshState w))
       (getDOMState element (innerWidth w) (innerHeight w))
       (a_lerpFactor (closure_of p v)))
    (mount p v w).
Proof.
  intros Hinv Hel. rewrite mount_unfold.
  pose proof (render_single_loop p v w Hinv) as Hinv1.
  set (s0 := fst (getSharedMeshState w)).
  set (w1 := snd (AnimatedMesh p v w)) in *.
  assert (Hfacts : sharedMeshState w1 = Some s0 /\
                   current (am_track p) w1 = Some element /\
                   innerWidth w1 = innerWidth w /\
                   innerHeight w1 = innerHeight w /\
                   fst (AnimatedMesh p v w)
                   = mkScope (am_track p) (a_lerpFactor (closure_of p v)) v
                       (Some (id p))).
  { subst s0 w1. unfold AnimatedMesh, getSharedMeshState.
    destruct (sharedMeshState w) as [s|] eqn:Hs; simpl;
      repeat split; try assumption; reflexivity. }
  destruct Hfacts as (Hs1 & Hel1 & Hvw & Hvh & Hsc).
  rewrite Hsc, (useEffect_body_started _ _ _ _ w1 s0 Hs1).
  pose proof (cancel_before_start_idle w1 s0 Hinv1 Hs1) as Hidle.
  set (w2 := if (animationId s0 =? 0)%N then w1
             else cancelAnimationFrame (animationId s0) w1) in *.
  assert (Hw2 : sharedMeshState w2 = Some s0 /\
                current (am_track p) w2 = Some element /\
                innerWidth w2 = innerWidth w /\ innerHeight w2 = innerHeight w).
  { subst w2. destruct (animationId s0 =? 0)%N; simpl; auto. }
  destruct Hw2 as (Hs2 & Hel2 & Hvw2 & Hvh2).
  change (mkAnimate (am_track p) (a_lerpFactor (closure_of p v)) v (id p))
    with (closure_of p v).
  rewrite (animate_attached (closure_of p v) w2 element s0 Hel2 Hs2).
  unfold running. simpl. rewrite Hidle, Hvw2, Hvh2. simpl.
  split; [eexists; reflexivity|]. split; [exact Hel2|].
  split; [reflexivity|]. split; [reflexivity|].
  eexists. split; [reflexivity|]. split; reflexivity.
Qed.

End MountedLoop.

(** X3: the effect runs its first tick at once, before any display frame.
    When a component mounts on a page reached from a fresh one and its
    element is attached, then after [n] display frames with the layout
    unchanged the shared position and scale are those of [n + 1]
    interpolation steps, started from the state found at the mount, towards
    the sample of that element. *)
Theorem mount_then_frames (num : Type) (NUM : Number num)
  (r : list (option (HTMLElement num))) (vw vh : num)
  (evs : list (Event num)) (p : AnimatedMeshProps num) (v : bool)
  (element : HTMLElement num) (n : nat) :
  let w := run (fresh_page r vw vh) evs in
  current (am_track p) w = Some element ->
  let s0 := fst (getSharedMeshState w) in
  let T := getDOMState element (innerWidth w) (innerHeight w) in
  let alpha := match am_lerpFactor p with Some a => a | None => n0_1 end in
  exists s',
    sharedMeshState (Nat.iter n animationFrame (mount p v w)) = Some s' /\
    position s' = position (ticks (S n) alpha T s0) /\
    scale s' = scale (ticks (S n) alpha T s0).
Proof.
  intros w Hel s0 T alpha.
  assert (Hinv : single_loop w) by apply reachable_single_loop.
  pose proof (mount_running p v w element Hinv Hel) as Hrun.
  destruct (running_frames _ _ _ _ _ _ n Hrun)
    as (_ & _ & _ & _ & s' & Hs' & Hpos & Hscale).
  exists s'. split; [exact Hs'|].
  rewrite Hpos, Hscale. simpl a_lerpFactor.
  fold s0 T alpha. rewrite ticks_shift. split; reflexivity.
Qed.

(** On [page], the mount and one display frame make two steps: (19,0,0). *)
Lemma mount_then_frames_witness :
  exists s',
    sharedMeshState (animationFrame (mount shared_element true page)) = Some s' /\
    position s' = (mkVector3 19 0 0)%float.
Proof.
  destruct (mount_then_frames float _ [Some anchor_right] 1000%float 800%float
              [] shared_element true anchor_right 1 eq_refl)
    as (s' & Hs' & Hpos & _).
  exists s'. split; [exact Hs'|]. rewrite Hpos. vm_compute. reflexivity.
Defined.

(** ** Lifetime of the shared state *)

Section Lifetime.

Context {num : Type} {NUM : Number num}.

Implicit Types (w : World num) (a : Animate num) (s : SharedMeshState num).

Lemma animate_keeps_state a w s :
  sharedMeshState w = Some s ->
  exists s', sharedMeshState (animate a w) = Some s'.
Proof.
  intros Hs. destruct (animate_cases a w) as [-> | (el & s0 & Hel & Hs0)].
  - eauto.
  - rewrite (animate_attached a w el s0 Hel Hs0). simpl. eauto.
Qed.

Lemma run_callbacks_keeps_state (hs : list N) :
  forall w s, sharedMeshState w = Some s ->
    exists s', sharedMeshState (run_callbacks hs w) = Some s'.
Proof.
  induction hs as [|h hs IH]; intros w s Hs; simpl; [eauto|].
  destruct (find _ (frame_callbacks w)) as [[h' a]|].
  - destruct (animate_keeps_state a (cancelAnimationFrame h w) s Hs) as [s1 Hs1].
    exact (IH _ s1 Hs1).
  - exact (IH w s Hs).
Qed.

Lemma step_keeps_state w (e : Event num) s :
  sharedMeshState w = Some s ->
  exists s', sharedMeshState (step w e) = Some s'.
Proof.
  intros Hs. destruct e as [r vw vh | p v | sc | | ]; simpl.
  - eauto.
  - unfold AnimatedMesh, getSharedMeshState. rewrite Hs. simpl. eauto.
  - unfold useEffect_body. destruct (update sc) as [upd|]; [|eauto].
    rewrite Hs. simpl. apply (animate_keeps_state _ _ s).
    destruct (animationId s =? 0)%N; exact Hs.
  - unfold cleanup. rewrite Hs. destruct (animationId s =? 0)%N; simpl; eauto.
  - apply (run_callbacks_keeps_state _ w s Hs).
Qed.

(** Renders, cleanups, layout changes and effects without [update] keep
    position and scale. *)
Lemma quiet_step_keeps_geometry w (e : Event num) s :
  quiet e = true ->
  sharedMeshState w = Some s ->
  exists s', sharedMeshState (step w e) = Some s' /\
             position s' = position s /\ scale s' = scale s.
Proof.
  intros Hq Hs. destruct e as [r vw vh | p v | sc | | ]; simpl in *.
  - eauto.
  - unfold AnimatedMesh, getSharedMeshState. rewrite Hs. simpl. eauto.
  - unfold useEffect_body. destruct (update sc); [discriminate|]. eauto.
  - unfold cleanup. rewrite Hs. destruct (animationId s =? 0)%N; simpl; eauto.
  - discriminate.
Qed.

End Lifetime.

(** X4: the shared state is never destroyed and only ticks move it.  Once
    [window.sharedMeshState] exists it exists after any sequence of renders,
    effects, cleanups, layout changes and display frames; and through
    renders, cleanups, layout changes and effects whose [update] is
    undefined its position and scale stay what they were. *)
Theorem shared_state_outlives_mounts (num : Type) (NUM : Number num)
  (w : World num) (s : SharedMeshState num) (evs : list (Event num)) :
  sharedMeshState w = Some s ->
  (exists s', sharedMeshState (run w evs) = Some s') /\
  (forallb quiet evs = true ->
   exists s', sharedMeshState (run w evs) = Some s' /\
              position s' = position s /\ scale s' = scale s).
Proof.
  revert w s. induction evs as [|e evs IH]; intros w s Hs; simpl.
  - split; [eauto|]. intros _. eauto.
  - split.
    + destruct (step_keeps_state w e s Hs) as [s1 Hs1].
      exact (proj1 (IH _ s1 Hs1)).
    + intros Hq. apply andb_prop in Hq. destruct Hq as [Hqe Hqs].
      destruct (quiet_step_keeps_geometry w e s Hqe Hs)
        as (s1 & Hs1 & Hpos & Hscale).
      destruct (proj2 (IH _ s1 Hs1) Hqs) as (s2 & Hs2 & Hpos2 & Hscale2).
      exists s2. split; [exact Hs2|]. split; congruence.
Qed.

(** Leaving [page] after one display frame and rendering on the next page
    keeps position (19,0,0). *)
Lemma shared_state_outlives_mounts_witness :
  let w := animationFrame (mount shared_element true page) in
  let evs := [ev_cleanup; ev_layout [Some anchor] 1000%float 800%float;
              ev_render shared_element false] in
  exists s', sharedMeshState (run w evs) = Some s' /\
             position s' = (mkVector3 19 0 0)%float.
Proof.
  intros w evs.
  destruct (proj2 (shared_state_outlives_mounts float _ w
                     (mkShared (mkVector3 19 0 0)
                        (mkVector3 16.009999999999998 16.009999999999998 1)
                        2%N)%float
                     evs eq_refl) eq_refl)
    as (s' & Hs' & Hpos & _).
  exists s'. split; [exact Hs' | exact Hpos].
Defined.


(** ** Geometry of the sampler, without rounding *)





(** ** Approach to the target, without rounding *)

Section ExactApproach.

Local Open Scope Q_scope.





End ExactApproach.




(** ** The depth components at binary64 *)

Section Depth.

Local Open Scope float_scope.

Lemma finite_shape (a : float) :
  is_finite a = true ->
  (exists s, Prim2SF a = S754_zero s) \/
  (exists s m e, Prim2SF a = S754_finite s m e).
Proof.
  unfold is_finite, is_nan, is_infinity.
  rewrite !FloatAxioms.eqb_spec, abs_spec.
  destruct (Prim2SF a) as [s | s | | s m e] eqn:H.
  - intros _. left. eauto.
  - destruct s; vm_compute; discriminate.
  - vm_compute. discriminate.
  - intros _. right. eauto.
Qed.

(** Adding zero times a finite factor changes neither 0 nor 1: the product
    is a zero of either sign, which the sum absorbs. *)
Lemma zero_step_finite (a : float) :
  is_finite a = true -> 0 + 0 * a = 0 /\ 1 + 0 * a = 1.
Proof.
  intros Hf.
  assert (Hm : exists s, Prim2SF (0 * a) = S754_zero s).
  { rewrite mul_spec.
    destruct (finite_shape a Hf) as [[s H] | (s & m & e & H)];
      rewrite H; vm_compute; eauto. }
  destruct Hm as [s Hm]. split.
  - rewrite <- (SF2Prim_Prim2SF (0 + 0 * a)), add_spec, Hm.
    destruct s; vm_compute; reflexivity.
  - rewrite <- (SF2Prim_Prim2SF (1 + 0 * a)), add_spec, Hm.
    destruct s; vm_compute; reflexivity.
Qed.

Lemma animate_flat (a : Animate float) (w : World float) :
  is_finite (a_lerpFactor a) = true -> flat w -> flat (animate a w).
Proof.
  intros Hf [Hz Hcb].
  destruct (animate_cases a w) as [-> | (el & s & Hel & Hs)];
    [split; assumption|].
  rewrite (animate_attached a w el s Hel Hs).
  destruct (Hz s Hs) as [Hzp Hzs].
  destruct (zero_step_finite (a_lerpFactor a) Hf) as [H0 H1].
  split; simpl.
  - intros s' Heq. inversion Heq; subst s'. simpl.
    rewrite Hzp, Hzs.
    change (0 - 0) with 0. change (1 - 1) with 0. split; assumption.
  - intros h a' Hin. apply in_app_or in Hin. destruct Hin as [Hin | [Heq | []]].
    + exact (Hcb h a' Hin).
    + inversion Heq; subst. exact Hf.
Qed.

Lemma cancel_flat (h : N) (w : World float) :
  flat w -> flat (cancelAnimationFrame h w).
Proof.
  intros [Hz Hcb]. split; [exact Hz|].
  intros h' a Hin. simpl in Hin. apply filter_In in Hin.
  exact (Hcb h' a (proj1 Hin)).
Qed.

Lemma run_callbacks_flat (hs : list N) :
  forall w : World float, flat w -> flat (run_callbacks hs w).
Proof.
  induction hs as [|h hs IH]; intros w Hflat; simpl; [exact Hflat|].
  destruct (find _ (frame_callbacks w)) as [[h' a]|] eqn:Hfind.
  - apply IH, animate_flat; [|apply cancel_flat, Hflat].
    apply find_some in Hfind. exact (proj2 Hflat h' a (proj1 Hfind)).
  - apply IH, Hflat.
Qed.

Lemma step_flat (w : World float) (e : Event float) :
  finite_factor e = true -> flat w -> flat (step w e).
Proof.
  intros Hf Hflat. destruct e as [r vw vh | p v | sc | | ]; simpl in *.
  - exact Hflat.
  - destruct Hflat as [Hz Hcb]. unfold AnimatedMesh, getSharedMeshState.
    destruct (sharedMeshState w) as [s|] eqn:Hs; simpl; split; simpl;
      try exact Hcb.
    + intros s' Heq. rewrite Hs in Heq. exact (Hz s' Heq).
    + intros s' Heq. inversion Heq; subst s'. split; reflexivity.
  - unfold useEffect_body. destruct (update sc) as [upd|]; [|exact Hflat].
    destruct (sharedMeshState w) as [s|]; [|exact Hflat]. simpl.
    apply animate_flat; [exact Hf|].
    destruct (animationId s =? 0)%N; [exact Hflat | apply cancel_flat, Hflat].
  - unfold cleanup. destruct (sharedMeshState w) as [s|] eqn:Hs; [|exact Hflat].
    destruct (animationId s =? 0)%N; [exact Hflat|].
    destruct (cancel_flat (animationId s) w Hflat) as [_ Hcb].
    split; [|exact Hcb]. simpl. intros s' Heq. inversion Heq; subst s'. simpl.
    exact (proj1 Hflat s Hs).
  - apply run_callbacks_flat. exact Hflat.
Qed.

End Depth.

(** X8: the proxy stays flat at binary64.  On every page reached from a
    fresh one by events whose effects carry a finite [lerpFactor] (any
    number but the infinities and NaN), the shared position has z exactly 0
    and the shared scale has z exactly 1: each tick adds zero times the
    factor to them, and rounding does not disturb that. *)
Theorem depth_stays_fixed (r : list (option (HTMLElement float)))
  (vw vh : float) (evs : list (Event float)) (s : SharedMeshState float) :
  forallb finite_factor evs = true ->
  sharedMeshState (run (fresh_page r vw vh) evs) = Some s ->
  z (position s) = 0%float /\ z (scale s) = 1%float.
Proof.
  intros Hfin.
  assert (H : forall w, flat w -> flat (run w evs)).
  { induction evs as [|e evs IH]; intros w Hflat; simpl; [exact Hflat|].
    simpl in Hfin. apply andb_prop in Hfin. destruct Hfin as [He Hevs].
    apply (IH Hevs), step_flat; assumption. }
  assert (Hfresh : flat (fresh_page r vw vh)).
  { split; simpl; [discriminate | intros h a []]. }
  exact (proj1 (H _ Hfresh) s).
Qed.

(** After the mount on [page] and a hundred display frames the depth
    components are still 0 and 1. *)
Lemma depth_stays_fixed_witness :
  let evs :=
    [ev_render shared_element true;
     ev_effect (fst (AnimatedMesh shared_element true page))]
    ++ repeat ev_frame 100 in
  exists s,
    sharedMeshState (run page evs) = Some s /\
    z (position s) = 0%float /\ z (scale s) = 1%float.
Proof.
  intros evs.
  destruct (sharedMeshState (run page evs)) as [s|] eqn:Hs;
    [|vm_compute in Hs; discriminate Hs].
  exists s. split; [reflexivity|].
  exact (depth_stays_fixed [Some anchor_right] 1000%float 800%float evs s
           eq_refl Hs).
Defined.


(** ** The wrapper *)

Section Wrapper.

Context {num : Type} {NUM : Number num}.

Implicit Types (w : World num).

Lemma fresh_ref_is_null w :
  current (List.length (refs w))
    (set_layout (refs w ++ [None]) (innerWidth w) (innerHeight w) w) = None.
Proof.
  unfold current. simpl. rewrite app_nth2 by lia.
  rewrite Nat.sub_diag. reflexivity.
Qed.

(** A mount whose element is not attached registers the proxy and does
    nothing else but cancel what was pending. *)
Lemma mount_detached (p : AnimatedMeshProps num) (v : bool) w :
  single_loop w ->
  current (am_track p) w = None ->
  frame_callbacks (mount p v w) = [] /\
  calls (mount p v w)
    = calls w
      ++ [useCanvas_call (id p)
            (props_of (position (fst (getSharedMeshState w)))
               (scale (fst (getSharedMeshState w))) v) false].
Proof.
  intros Hinv Hel. rewrite mount_unfold.
  pose proof (render_single_loop p v w Hinv) as Hinv1.
  set (s0 := fst (getSharedMeshState w)).
  set (w1 := snd (AnimatedMesh p v w)) in *.
  assert (Hfacts : sharedMeshState w1 = Some s0 /\
                   current (am_track p) w1 = None /\
                   calls w1
                   = calls w
                     ++ [useCanvas_call (id p)
                           (props_of (position s0) (scale s0) v) false] /\
                   fst (AnimatedMesh p v w)
                   = mkScope (am_track p) (a_lerpFactor (closure_of p v)) v
                       (Some (id p))).
  { subst s0 w1. unfold AnimatedMesh, getSharedMeshState.
    destruct (sharedMeshState w) as [s|] eqn:Hs; simpl;
      repeat split; try assumption; reflexivity. }
  destruct Hfacts as (Hs1 & Hel1 & Hcalls & Hsc).
  rewrite Hsc, (useEffect_body_started _ _ _ _ w1 s0 Hs1).
  pose proof (cancel_before_start_idle w1 s0 Hinv1 Hs1) as Hidle.
  set (w2 := if (animationId s0 =? 0)%N then w1
             else cancelAnimationFrame (animationId s0) w1) in *.
  assert (Hw2 : current (am_track p) w2 = None /\ calls w2 = calls w1)
    by (subst w2; destruct (animationId s0 =? 0)%N; simpl; auto).
  destruct Hw2 as (Hel2 & Hcalls2).
  rewrite animate_detached by exact Hel2.
  split; [exact Hidle | congruence].
Qed.

End Wrapper.

(** X9: an [AnimatedElement] whose rendered component never puts an element
    into the ref (for instance an [as] component that does not forward it)
    stops the animation.  On every page reached from a fresh one, the ref
    cell the wrapper creates is new and holds [null], the other cells are
    as before; the mount registers the proxy and pushes no update; nothing
    is pending afterwards, a loop that was running is cancelled; and later
    display frames and layout changes (also one that attaches the element)
    leave the shared state and the calls as they are. *)
Theorem unattached_AnimatedElement_stops_animation (num : Type)
  (NUM : Number num) (r : list (option (HTMLElement num))) (vw vh : num)
  (evs : list (Event num)) (p : AnimatedElementProps num) (v : bool)
  (ps : list (Passive num)) :
  let w := run (fresh_page r vw vh) evs in
  let mesh := fst (AnimatedElement p w) in
  let w1 := snd (AnimatedElement p w) in
  let w2 := mount mesh v w1 in
  current (am_track mesh) w1 = None /\
  firstn (List.length (refs w)) (refs w1) = refs w /\
  frame_callbacks w2 = [] /\
  calls w2
    = calls w
      ++ [useCanvas_call (ae_id p)
            (props_of (position (fst (getSharedMeshState w)))
               (scale (fst (getSharedMeshState w))) v) false] /\
  sharedMeshState (run w2 (map event_of ps)) = sharedMeshState w2 /\
  calls (run w2 (map event_of ps)) = calls w2.
Proof.
  intros w mesh w1 w2.
  assert (Hinv : single_loop w) by apply reachable_single_loop.
  assert (Hinv1 : single_loop w1) by exact Hinv.
  assert (Hnull : current (am_track mesh) w1 = None)
    by apply fresh_ref_is_null.
  destruct (mount_detached mesh v w1 Hinv1 Hnull) as [Hidle Hcalls].
  fold w2 in Hidle, Hcalls.
  split; [exact Hnull|]. split.
  { subst w1. simpl. rewrite firstn_app, Nat.sub_diag, firstn_all. simpl.
    apply app_nil_r. }
  split; [exact Hidle|]. split.
  { rewrite Hcalls. subst w1 mesh. unfold getSharedMeshState. simpl.
    destruct (sharedMeshState w); reflexivity. }
  destruct (idle_stays_idle ps w2 Hidle) as (_ & Hst & Hc & _).
  split; assumption.
Qed.
